(** * Newspaper site: the WordPress client library

    A shallow embedding of the WordPress utility module (getPosts,
    getPostBySlug, getCategories, getCategoryBySlug, getFeaturedImage,
    getAuthorName, calculateReadingTime, stripHtml, createExcerpt), of the
    page-number parsing done by the home and category pages and of the home
    page's choice of view, with the properties the specification states
    about them and further properties read off the code. *)

From Stdlib Require Import String Ascii Numbers.DecimalString.
From Stdlib Require Import List NArith ZArith Lia Bool.
From Stdlib Require DecimalPos DecimalN.
Import ListNotations.

(** ** JavaScript strings

    A JavaScript string is a sequence of UTF-16 code units; [length],
    [substring], [split] and the regular expressions of the module (none has
    the [u] flag) all work on code units. *)

Module JsString.

Definition code_unit := N.
Definition jsstring := list code_unit.

(** An ASCII literal of the source as a sequence of code units. *)
Definition lit (s : string) : jsstring :=
  map N_of_ascii (list_ascii_of_string s).

(** [s.repeat(n)] *)
Fixpoint repeat_str (s : jsstring) (n : nat) : jsstring :=
  match n with
  | O => []
  | S n' => s ++ repeat_str s n'
  end.

(** The class [\s] of a regular expression, which is also the set that
    [trim] and [parseInt] strip: WhiteSpace and LineTerminator of the
    language definition. *)
Definition is_space (c : code_unit) : bool :=
  ((9 <=? c) && (c <=? 13)          (* TAB LF VT FF CR *)
   || (c =? 32)                     (* SPACE *)
   || (c =? 160)                    (* NO-BREAK SPACE *)
   || (c =? 5760)                   (* U+1680 *)
   || ((8192 <=? c) && (c <=? 8202))  (* U+2000 .. U+200A *)
   || (c =? 8232) || (c =? 8233)    (* U+2028, U+2029 *)
   || (c =? 8239) || (c =? 8287)    (* U+202F, U+205F *)
   || (c =? 12288)                  (* U+3000 *)
   || (c =? 65279))%N.              (* U+FEFF *)

Definition LT : code_unit := 60%N.  (* < *)
Definition GT : code_unit := 62%N.  (* > *)

Definition eqb (a b : jsstring) : bool :=
  if list_eq_dec N.eq_dec a b then true else false.

(** [s.trimStart()], [s.trimEnd()], [s.trim()] *)
Fixpoint trimStart (s : jsstring) : jsstring :=
  match s with
  | [] => []
  | c :: r => if is_space c then trimStart r else s
  end.

Definition trimEnd (s : jsstring) : jsstring := rev (trimStart (rev s)).

Definition trim (s : jsstring) : jsstring := trimEnd (trimStart s).

(** [s.substring(0, n)] for an integer [n >= 0]: the end index is clamped
    to the length. *)
Definition substring0 (s : jsstring) (n : nat) : jsstring := firstn n s.

(** [s.split(/\s+/)].  The scan keeps the piece collected so far; at a
    white-space code unit the greedy [\s+] consumes the whole run (the inner
    loop), the piece before it is emitted and a new one starts after the run.
    The piece that is open when the input ends is always emitted, so the
    empty string gives [[""]] and a string that ends in white space gives a
    last piece [""]. *)
Fixpoint split_ws_from (piece : jsstring) (s : jsstring) : list jsstring :=
  match s with
  | [] => [piece]
  | c :: r =>
      if is_space c then
        piece ::
          (fix run (t : jsstring) : list jsstring :=
             match t with
             | [] => [[]]
             | d :: t' => if is_space d then run t' else split_ws_from [d] t'
             end) r
      else split_ws_from (piece ++ [c]) r
  end.

Definition split_ws (s : jsstring) : list jsstring := split_ws_from [] s.

(** Does a [>] occur in [s]? *)
Definition has_gt (s : jsstring) : bool := existsb (N.eqb GT) s.

(** [s.replace(/<[^>]*>/g, '')].  At a [<] the pattern matches exactly when
    a [>] follows somewhere ([[^>]] also takes line breaks and further [<]),
    and the match then ends at the first such [>]; the scan goes on behind
    it.  A [<] with no [>] behind it is kept. *)
Fixpoint strip_tags (s : jsstring) : jsstring :=
  match s with
  | [] => []
  | c :: r =>
      if (c =? LT)%N && has_gt r then
        (fix tag (t : jsstring) : jsstring :=
           match t with
           | [] => []
           | d :: t' => if (d =? GT)%N then strip_tags t' else tag t'
           end) r
      else c :: strip_tags r
  end.

End JsString.

Import JsString.

(** ** Content accessors on strings *)

(** [Math.ceil(n / 200)] for a count [n]: the quotient of a non-negative
    integer below 2^53 by 200 is either exact or at least 1/200 away from
    every integer, so the floating-point ceiling is the integer one. *)
Definition ceil_div200 (n : nat) : nat := (n + 199) / 200.

(** [stripHtml(html)] *)
Definition stripHtml (html : jsstring) : jsstring := strip_tags html.

(** [calculateReadingTime(content)] *)
Definition calculateReadingTime (content : jsstring) : nat :=
  let text := strip_tags content in
  let wordCount := length (split_ws text) in
  let readingTime := ceil_div200 wordCount in
  readingTime.

Definition ellipsis : jsstring := lit "...".

(** [createExcerpt(content, maxLength = 150)]: [None] is the omitted
    argument. *)
Definition createExcerpt (content : jsstring) (maxLength : option nat)
  : jsstring :=
  let maxLength := match maxLength with Some m => m | None => 150 end in
  let text := stripHtml content in
  if length text <=? maxLength then text
  else trim (substring0 text maxLength) ++ ellipsis.

(** ** JavaScript values *)

Module JsValue.

(** The numbers of the module: [NaN] or an integer.  These are the values
    [parseInt] returns and the module passes around; the model is exact for
    integers that a double holds exactly and prints in plain decimal
    notation. *)
Inductive number : Type :=
  | NaN
  | Int (z : Z).

(** A decoded JSON document, or [undefined]. *)
#[local] Set Warnings "-register-all".
Inductive value : Type :=
  | VUndefined
  | VNull
  | VBool (b : bool)
  | VNum (n : number)
  | VStr (s : jsstring)
  | VArr (elems : list value)
  | VObj (fields : list (jsstring * value)).

(** What a [throw] or a rejected promise carries. *)
Inductive exn : Type :=
  | Error (message : jsstring)   (* throw new Error(message) *)
  | TypeError                    (* property read on null or undefined *)
  | Rejected.                    (* the platform rejected the promise *)

(** The outcome of evaluating code that may throw. *)
Inductive completion (A : Type) : Type :=
  | Normal (a : A)
  | Throw (e : exn).

Arguments Normal {A} a.
Arguments Throw {A} e.

Definition bind {A B} (c : completion A) (k : A -> completion B)
  : completion B :=
  match c with
  | Normal a => k a
  | Throw e => Throw e
  end.

(** [try { body } catch (error) { handler }] *)
Definition try_catch {A} (body : completion A) (handler : exn -> A) : A :=
  match body with
  | Normal a => a
  | Throw e => handler e
  end.

(** ToBoolean *)
Definition truthy (v : value) : bool :=
  match v with
  | VUndefined | VNull => false
  | VBool b => b
  | VNum NaN => false
  | VNum (Int z) => negb (z =? 0)%Z
  | VStr s => match s with [] => false | _ => true end
  | VArr _ | VObj _ => true
  end.

(** [a || b] *)
Definition or_else (a b : value) : value := if truthy a then a else b.

(** Number.prototype.toString, radix 10 *)
Definition number_toString (n : number) : jsstring :=
  match n with
  | NaN => lit "NaN"
  | Int z => lit (NilZero.string_of_int (Z.to_int z))
  end.

Definition nat_toString (i : nat) : jsstring :=
  number_toString (Int (Z.of_nat i)).

Fixpoint lookup (k : jsstring) (fields : list (jsstring * value))
  : option value :=
  match fields with
  | [] => None
  | (k', v) :: rest => if JsString.eqb k k' then Some v else lookup k rest
  end.

Definition or_undefined (o : option value) : value :=
  match o with
  | Some v => v
  | None => VUndefined
  end.

(** [v.name] for a property name that is not an array index.  Reading a
    property of [null] or [undefined] throws; arrays and strings have
    [length]; the other primitives have no properties of their own.  None of
    the names the module reads is a member of a built-in prototype. *)
Definition get_field (v : value) (name : jsstring) : completion value :=
  match v with
  | VUndefined | VNull => Throw TypeError
  | VObj fields => Normal (or_undefined (lookup name fields))
  | VArr elems =>
      Normal (if JsString.eqb name (lit "length")
              then VNum (Int (Z.of_nat (length elems))) else VUndefined)
  | VStr s =>
      Normal (if JsString.eqb name (lit "length")
              then VNum (Int (Z.of_nat (length s))) else VUndefined)
  | VBool _ | VNum _ => Normal VUndefined
  end.

(** [v[i]] for an index [i] *)
Definition get_index (v : value) (i : nat) : completion value :=
  match v with
  | VUndefined | VNull => Throw TypeError
  | VObj fields => Normal (or_undefined (lookup (nat_toString i) fields))
  | VArr elems => Normal (nth i elems VUndefined)
  | VStr s =>
      Normal (match nth_error s i with
              | Some c => VStr [c]
              | None => VUndefined
              end)
  | VBool _ | VNum _ => Normal VUndefined
  end.

(** Optional chaining, [v?.name] and [v?.[i]]: [undefined] when [v] is
    [null] or [undefined]. *)
Definition opt_field (v : value) (name : jsstring) : completion value :=
  match v with
  | VUndefined | VNull => Normal VUndefined
  | _ => get_field v name
  end.

Definition opt_index (v : value) (i : nat) : completion value :=
  match v with
  | VUndefined | VNull => Normal VUndefined
  | _ => get_index v i
  end.

(** The value of a digit in [parseInt], for radixes up to 36. *)
Definition digit_value (c : code_unit) : option N :=
  if ((48 <=? c) && (c <=? 57))%N then Some (c - 48)%N
  else if ((97 <=? c) && (c <=? 122))%N then Some (c - 87)%N
  else if ((65 <=? c) && (c <=? 90))%N then Some (c - 55)%N
  else None.

(** The longest prefix of radix-[R] digits, as a number; [acc] is [None]
    while no digit has been read. *)
Fixpoint parse_digits (R : N) (acc : option N) (s : jsstring) : option N :=
  match s with
  | [] => acc
  | c :: r =>
      match digit_value c with
      | Some d =>
          if (d <? R)%N
          then parse_digits R
                 (Some (match acc with Some a => a * R + d | None => d end)%N) r
          else acc
      | None => acc
      end
  end.

(** [parseInt(s)] with no radix argument: leading white space is skipped, a
    sign is read, a [0x] or [0X] prefix selects radix 16, and the longest
    prefix of digits is the result; [NaN] when there is no digit. *)
Definition parseInt (s : jsstring) : number :=
  let s1 := trimStart s in
  let '(sign, s2) :=
    match s1 with
    | c :: r =>
        if (c =? 45)%N then ((-1)%Z, r)
        else if (c =? 43)%N then (1%Z, r)
        else (1%Z, s1)
    | [] => (1%Z, s1)
    end in
  let '(R, s3) :=
    match s2 with
    | c0 :: c1 :: r =>
        if ((c0 =? 48) && ((c1 =? 120) || (c1 =? 88)))%N then (16%N, r)
        else (10%N, s2)
    | _ => (10%N, s2)
    end in
  match parse_digits R None s3 with
  | None => NaN
  | Some m => Int (sign * Z.of_N m)
  end.

(** [a <= b] and [a >= b] on numbers: [false] as soon as one side is
    [NaN]. *)
Definition num_leb (a b : number) : bool :=
  match a, b with
  | Int x, Int y => (x <=? y)%Z
  | _, _ => false
  end.

Definition num_ltb (a b : number) : bool :=
  match a, b with
  | Int x, Int y => (x <? y)%Z
  | _, _ => false
  end.

End JsValue.

Import JsValue.

Notation "x <- c ;; k" := (bind c (fun x => k))
  (at level 61, c at next level, right associativity).

(** ** The CMS client *)

(** What the module reads of a fetch [Response]: the [ok] flag,
    [headers.get(name)] ([None] is the [null] of an absent header) and the
    promise of [json()]. *)
Record Response : Type := {
  ok : bool;
  headers_get : jsstring -> option jsstring;
  json : completion value
}.

(** A query argument handed to [getPosts]: a string or a number. *)
Inductive scalar : Type :=
  | SStr (s : jsstring)
  | SNum (n : number).

Definition scalar_value (x : scalar) : value :=
  match x with
  | SStr s => VStr s
  | SNum n => VNum n
  end.

(** ToString of a string or a number *)
Definition scalar_toString (x : scalar) : jsstring :=
  match x with
  | SStr s => s
  | SNum n => number_toString n
  end.

(** The argument object of [getPosts]; [None] is a property that is missing
    or [undefined], for which the destructuring default applies. *)
Record PostsParams : Type := {
  page : option number;
  perPage : option number;
  categories : option scalar;
  search : option scalar
}.

(** The object [getPosts] returns. *)
Record PostsResult : Type := {
  posts : value;
  totalPages : number;
  totalPosts : number;
  currentPage : number
}.

(** The entries of a [URLSearchParams] object, in insertion order. *)
Definition query := list (jsstring * jsstring).

Definition append (q : query) (name val : jsstring) : query :=
  q ++ [(name, val)].

Definition with_default {A} (o : option A) (d : A) : A :=
  match o with
  | Some a => a
  | None => d
  end.

(** [h || d] for a header value [h] (a string or [null]) and a string
    literal [d] *)
Definition string_or (h : option jsstring) (d : jsstring) : jsstring :=
  match h with
  | Some (c :: r) => c :: r
  | Some [] | None => d
  end.

(** The object of the [catch] branch of [getPosts]. *)
Definition emptyResult : PostsResult :=
  {| posts := VArr [];
     totalPages := Int 1;
     totalPosts := Int 0;
     currentPage := Int 1 |}.

Section Client.

(** The environment of the module: the configured endpoint, the platform's
    [fetch] (an awaited call either gives a response or throws) and the
    serialisation of a [URLSearchParams] object. *)
Variable NEXT_PUBLIC_WORDPRESS_API_URL : option jsstring.
Variable fetch : jsstring -> completion Response.
Variable URLSearchParams_toString : query -> jsstring.

Definition WP_API_URL : jsstring :=
  string_or NEXT_PUBLIC_WORDPRESS_API_URL
            (lit "https://demo.wp-api.org/wp-json/wp/v2").

(** The [URLSearchParams] object [getPosts] builds before the request. *)
Definition getPosts_queryParams (params : PostsParams) : query :=
  let page := with_default (page params) (Int 1) in
  let perPage := with_default (perPage params) (Int 9) in
  let categories := with_default (categories params) (SStr []) in
  let search := with_default (search params) (SStr []) in
  let queryParams :=
    [(lit "page", number_toString page);
     (lit "per_page", number_toString perPage);
     (lit "_embed", lit "true")] in
  let queryParams :=
    if truthy (scalar_value categories)
    then append queryParams (lit "categories") (scalar_toString categories)
    else queryParams in
  let queryParams :=
    if truthy (scalar_value search)
    then append queryParams (lit "search") (scalar_toString search)
    else queryParams in
  queryParams.

Definition getPosts_url (params : PostsParams) : jsstring :=
  WP_API_URL ++ lit "/posts?"
    ++ URLSearchParams_toString (getPosts_queryParams params).

(** [getPosts(params)].  The message written to the console in the [catch]
    branch is not part of the result and is left out. *)
Definition getPosts (params : PostsParams) : PostsResult :=
  let page := with_default (page params) (Int 1) in
  try_catch
    (response <- fetch (getPosts_url params) ;;
     if negb (ok response) then Throw (Error (lit "Failed to fetch posts"))
     else
       let totalPages :=
         parseInt (string_or (headers_get response (lit "X-WP-TotalPages"))
                             (lit "1")) in
       let totalPosts :=
         parseInt (string_or (headers_get response (lit "X-WP-Total"))
                             (lit "0")) in
       posts <- json response ;;
       Normal {| posts := posts;
                 totalPages := totalPages;
                 totalPosts := totalPosts;
                 currentPage := page |})
    (fun error => emptyResult).

Definition getPostBySlug_url (slug : jsstring) : jsstring :=
  WP_API_URL ++ lit "/posts?slug=" ++ slug ++ lit "&_embed=true".

(** [getPostBySlug(slug)] *)
Definition getPostBySlug (slug : jsstring) : value :=
  try_catch
    (response <- fetch (getPostBySlug_url slug) ;;
     if negb (ok response) then Throw (Error (lit "Failed to fetch post"))
     else
       posts <- json response ;;
       first <- get_index posts 0 ;;
       Normal (or_else first VNull))
    (fun error => VNull).

(** The page number the home and category pages read from the query string:
    [parseInt(searchParams?.page || '1')]. *)
Definition requestedPage (searchParams_page : option jsstring) : number :=
  parseInt (string_or searchParams_page (lit "1")).

(** The [getPosts] call of [HomePage]. *)
Definition HomePage_params (searchParams_page : option jsstring)
  : PostsParams :=
  {| page := Some (requestedPage searchParams_page);
     perPage := Some (Int 9);
     categories := None;
     search := None |}.

(** The [getPosts] call of [CategoryPage]; [category_id] is [category.id],
    [None] when the category record has no such property. *)
Definition CategoryPage_params (category_id : option scalar)
    (searchParams_page : option jsstring) : PostsParams :=
  {| page := Some (requestedPage searchParams_page);
     perPage := Some (Int 9);
     categories := category_id;
     search := None |}.

End Client.

(** ** Content accessors on posts *)

Definition unknownAuthor : value := VStr (lit "Unknown Author").

(** [getAuthorName(post)]:
    [post._embedded?.author?.[0]?.name || 'Unknown Author'] *)
Definition getAuthorName (post : value) : completion value :=
  embedded <- get_field post (lit "_embedded") ;;
  author <- opt_field embedded (lit "author") ;;
  first <- opt_index author 0 ;;
  name <- opt_field first (lit "name") ;;
  Normal (or_else name unknownAuthor).

(** ** Sample inputs and upstream behaviours *)

(** The article of the reading-time example: 400 words in a paragraph. *)
Definition four_hundred_words : jsstring :=
  lit "<p>" ++ repeat_str (lit "word ") 400 ++ lit "</p>".

(** A serialisation of query entries that hold no reserved character:
    [name=value] pairs joined by [&]. *)
Fixpoint plain_serialize (q : query) : jsstring :=
  match q with
  | [] => []
  | (k, v) :: rest =>
      k ++ lit "=" ++ v
        ++ match rest with [] => [] | _ => lit "&" ++ plain_serialize rest end
  end.

(** A header table as a lookup function. *)
Definition headers_of (table : list (jsstring * jsstring))
  : jsstring -> option jsstring :=
  fun name =>
    match find (fun kv => JsString.eqb name (fst kv)) table with
    | Some kv => Some (snd kv)
    | None => None
    end.

(** An upstream that answers every request with the same response. *)
Definition always (r : Response) : jsstring -> completion Response :=
  fun _ => Normal r.

(** An upstream that cannot be reached. *)
Definition unreachable : jsstring -> completion Response :=
  fun _ => Throw Rejected.

(** 503 Service Unavailable *)
Definition service_unavailable : Response :=
  {| ok := false;
     headers_get := headers_of [];
     json := Normal (VObj [(lit "code", VStr (lit "unavailable"))]) |}.

(** A listing answered with the given totals and body. *)
Definition listing (pages total : jsstring) (body : value) : Response :=
  {| ok := true;
     headers_get := headers_of [(lit "X-WP-TotalPages", pages);
                                (lit "X-WP-Total", total)];
     json := Normal body |}.

(** A listing answered without the pagination headers. *)
Definition bare_listing (body : value) : Response :=
  {| ok := true; headers_get := headers_of []; json := Normal body |}.

(** A post with one embedded author of the given name. *)
Definition post_by (name : value) : value :=
  VObj [(lit "id", VNum (Int 1));
        (lit "slug", VStr (lit "hello-world"));
        (lit "_embedded",
         VObj [(lit "author",
                VArr [VObj [(lit "id", VNum (Int 7)); (lit "name", name)]])])].

(** The upstream answered a slug query successfully with no post. *)
Definition zero_matches (env : option jsstring)
    (fetch : jsstring -> completion Response) (slug : jsstring) : Prop :=
  exists response,
    fetch (getPostBySlug_url env slug) = Normal response /\
    ok response = true /\
    json response = Normal (VArr []).

(** The slug query failed: the request threw, the status was not a success,
    or the body could not be decoded. *)
Definition request_fails (env : option jsstring)
    (fetch : jsstring -> completion Response) (slug : jsstring) : Prop :=
  (exists e, fetch (getPostBySlug_url env slug) = Throw e) \/
  (exists response,
     fetch (getPostBySlug_url env slug) = Normal response /\
     (ok response = false \/ exists e, json response = Throw e)).

(** [items.length] of a result, when [items] is an array. *)
Definition items_length (v : value) : option nat :=
  match v with
  | VArr elems => Some (length elems)
  | _ => None
  end.

(** The invariant the specification gives for a page result: the current
    page and the page count are at least 1 and there are no more items than
    the requested page size. *)
Definition result_invariant (pageSize : number) (r : PostsResult) : bool :=
  num_leb (Int 1) (currentPage r)
  && num_leb (Int 1) (totalPages r)
  && match items_length (posts r) with
     | Some n => num_leb (Int (Z.of_nat n)) pageSize
     | None => false
     end.



(** ** The category client and the featured image *)

Section CategoryClient.

Variable NEXT_PUBLIC_WORDPRESS_API_URL : option jsstring.
Variable fetch : jsstring -> completion Response.

Definition getCategories_url : jsstring :=
  WP_API_URL NEXT_PUBLIC_WORDPRESS_API_URL ++ lit "/categories?per_page=100".

(** [getCategories()] *)
Definition getCategories : value :=
  try_catch
    (response <- fetch getCategories_url ;;
     if negb (ok response)
     then Throw (Error (lit "Failed to fetch categories"))
     else json response)
    (fun error => VArr []).

Definition getCategoryBySlug_url (slug : jsstring) : jsstring :=
  WP_API_URL NEXT_PUBLIC_WORDPRESS_API_URL ++ lit "/categories?slug=" ++ slug.

(** [getCategoryBySlug(slug)] *)
Definition getCategoryBySlug (slug : jsstring) : value :=
  try_catch
    (response <- fetch (getCategoryBySlug_url slug) ;;
     if negb (ok response)
     then Throw (Error (lit "Failed to fetch category"))
     else
       categories <- json response ;;
       first <- get_index categories 0 ;;
       Normal (or_else first VNull))
    (fun error => VNull).

End CategoryClient.

Definition placeholderImage : value := VStr (lit "/placeholder-news.jpg").

(** [getFeaturedImage(post)]: the guarded read of the condition, then the
    plain read of the same path in the branch. *)
Definition getFeaturedImage (post : value) : completion value :=
  embedded <- get_field post (lit "_embedded") ;;
  media <- opt_field embedded (lit "wp:featuredmedia") ;;
  first <- opt_index media 0 ;;
  source_url <- opt_field first (lit "source_url") ;;
  if truthy source_url then
    embedded <- get_field post (lit "_embedded") ;;
    media <- get_field embedded (lit "wp:featuredmedia") ;;
    first <- get_index media 0 ;;
    get_field first (lit "source_url")
  else Normal placeholderImage.

(** ** The home page *)

(** What [HomePage] renders: the empty state, or the grid with one
    [ArticleCard] per post (its [key] and its [post] property) above a
    [Pagination] with the two page numbers.  The markup around them is
    constant. *)
Inductive ListingView : Type :=
  | NoArticlesFound
  | ArticleGrid (cards : list (value * value))
                (currentPage totalPages : number).

(** [v === 0] *)
Definition is_zero (v : value) : bool :=
  match v with
  | VNum (Int 0) => true
  | _ => false
  end.

(** [elems.map((post) => <ArticleCard key={post.id} post={post} />)] *)
Fixpoint article_cards (elems : list value)
  : completion (list (value * value)) :=
  match elems with
  | [] => Normal []
  | post :: rest =>
      key <- get_field post (lit "id") ;;
      cards <- article_cards rest ;;
      Normal ((key, post) :: cards)
  end.

(** [posts.map(...)]: only an array has a [map] to call; a decoded JSON
    document holds no function. *)
Definition map_article_cards (posts : value)
  : completion (list (value * value)) :=
  match posts with
  | VArr elems => article_cards elems
  | _ => Throw TypeError
  end.

(** [HomePage({ searchParams })], with [searchParams?.page] as its input. *)
Definition HomePage (env : option jsstring)
    (fetch : jsstring -> completion Response)
    (serialize : query -> jsstring)
    (searchParams_page : option jsstring) : completion ListingView :=
  let r := getPosts env fetch serialize (HomePage_params searchParams_page) in
  len <- get_field (posts r) (lit "length") ;;
  if is_zero len then Normal NoArticlesFound
  else
    cards <- map_article_cards (posts r) ;;
    Normal (ArticleGrid cards (currentPage r) (totalPages r)).

(** ** Notions used to state the properties *)

(** No [<] of [s] has a [>] behind it, so [/<[^>]*>/] has no match in
    [s]. *)
Fixpoint tag_free (s : jsstring) : bool :=
  match s with
  | [] => true
  | c :: r => (negb (c =? LT)%N || negb (has_gt r)) && tag_free r
  end.

Definition has_lt (s : jsstring) : bool := existsb (N.eqb LT) s.

(** The inner loop of [strip_tags], which skips to the end of a tag. *)
Definition strip_tag_run : jsstring -> jsstring :=
  fix tag (t : jsstring) : jsstring :=
    match t with
    | [] => []
    | d :: t' => if (d =? GT)%N then strip_tags t' else tag t'
    end.

(** [a] is [b] with some code units deleted. *)
Inductive subseq : jsstring -> jsstring -> Prop :=
  | subseq_nil : subseq [] []
  | subseq_keep (c : code_unit) (a b : jsstring) :
      subseq a b -> subseq (c :: a) (c :: b)
  | subseq_drop (c : code_unit) (a b : jsstring) :
      subseq a b -> subseq a (c :: b).




(** The value is [null] or [undefined]. *)
Definition nullish (v : value) : bool :=
  match v with
  | VUndefined | VNull => true
  | _ => false
  end.

(** * Properties *)

(** ** White space and trimming *)

Definition all_space (s : jsstring) : Prop := forallb is_space s = true.

(** The number of maximal runs of white space in [s]; [in_run] tells that
    the code unit before [s] was white space. *)
Fixpoint space_runs (in_run : bool) (s : jsstring) : nat :=
  match s with
  | [] => 0
  | c :: r =>
      if is_space c then (if in_run then 0 else 1) + space_runs true r
      else space_runs false r
  end.

(** The inner loop of [split_ws_from], which consumes a run of white
    space. *)
Definition split_ws_run : jsstring -> list jsstring :=
  fix run (t : jsstring) : list jsstring :=
    match t with
    | [] => [[]]
    | d :: t' => if is_space d then run t' else split_ws_from [d] t'
    end.

(** The first code unit of [s], if any, is not white space. *)
Definition starts_clean (s : jsstring) : Prop :=
  match s with
  | [] => True
  | c :: _ => is_space c = false
  end.

Lemma trimStart_prefix (s : jsstring) :
  exists ws, s = ws ++ trimStart s /\ all_space ws.
Proof.
  induction s as [|c r [ws [Heq Hws]]]; simpl.
  - exists []. split; reflexivity.
  - destruct (is_space c) eqn:Hc.
    + exists (c :: ws). split.
      * simpl. now rewrite <- Heq.
      * unfold all_space. simpl. now rewrite Hc.
    + exists []. split; reflexivity.
Qed.

Lemma trimStart_clean (s : jsstring) : starts_clean (trimStart s).
Proof.
  induction s as [|c r IH]; simpl; [exact I|].
  destruct (is_space c) eqn:Hc; [exact IH|exact Hc].
Qed.

Lemma all_space_rev (s : jsstring) : all_space s -> all_space (rev s).
Proof.
  unfold all_space. rewrite !forallb_forall.
  intros H x Hx. apply H. now apply in_rev.
Qed.

Lemma trimEnd_suffix (s : jsstring) :
  exists ws, s = trimEnd s ++ ws /\ all_space ws.
Proof.
  unfold trimEnd.
  destruct (trimStart_prefix (rev s)) as [ws [Heq Hws]].
  exists (rev ws). split; [|now apply all_space_rev].
  rewrite <- rev_app_distr, <- Heq. now rewrite rev_involutive.
Qed.

Lemma trimEnd_clean (s : jsstring) : starts_clean (rev (trimEnd s)).
Proof.
  unfold trimEnd. rewrite rev_involutive. apply trimStart_clean.
Qed.

Lemma trimEnd_keeps_start (s : jsstring) :
  starts_clean s -> starts_clean (trimEnd s).
Proof.
  intros Hs. destruct (trimEnd_suffix s) as [ws [Heq Hws]].
  destruct (trimEnd s) as [|c t]; [exact I|].
  rewrite Heq in Hs. exact Hs.
Qed.

(** [trim] cuts a run of white space off each end, and what is left neither
    starts nor ends with white space. *)
Lemma trim_characterisation (s : jsstring) :
  exists before after,
    s = before ++ trim s ++ after /\
    all_space before /\ all_space after /\
    starts_clean (trim s) /\ starts_clean (rev (trim s)).
Proof.
  unfold trim.
  destruct (trimStart_prefix s) as [before [Hb Hbs]].
  destruct (trimEnd_suffix (trimStart s)) as [after [Ha Has]].
  exists before, after. repeat split; try assumption.
  - now rewrite <- Ha.
  - apply trimEnd_keeps_start, trimStart_clean.
  - apply trimEnd_clean.
Qed.

(** ** Reading time *)

Lemma split_ws_from_length (s piece : jsstring) :
  1 <= length (split_ws_from piece s).
Proof.
  revert piece. induction s as [|c r IH]; intros piece; simpl.
  - apply le_n.
  - destruct (is_space c); [simpl; lia | apply IH].
Qed.

(** The split yields one piece more than there are runs of white space,
    whether or not a word stands before the first or behind the last run. *)
Lemma split_ws_from_runs (s : jsstring) :
  (forall piece,
     length (split_ws_from piece s) = S (space_runs false s)) /\
  length (split_ws_run s) = S (space_runs true s).
Proof.
  induction s as [|c r [IHpiece IHrun]].
  - split; reflexivity.
  - unfold split_ws_run in *. split; [intros piece|];
      cbn [split_ws_from space_runs]; destruct (is_space c);
      cbn [length]; rewrite ?IHrun, ?IHpiece; reflexivity.
Qed.

Lemma split_ws_length (s : jsstring) :
  length (split_ws s) = S (space_runs false s).
Proof. apply split_ws_from_runs. Qed.

Lemma ceil_div200_pos (n : nat) : 1 <= n -> 1 <= ceil_div200 n.
Proof.
  intros Hn. unfold ceil_div200.
  apply Nat.div_le_lower_bound; lia.
Qed.

(** [ceil_div200 n] is the least [k] with [n <= 200 * k]. *)
Lemma ceil_div200_spec (n : nat) :
  n <= 200 * ceil_div200 n /\ 200 * ceil_div200 n < n + 200.
Proof.
  unfold ceil_div200.
  pose proof (Nat.div_mod_eq (n + 199) 200) as E.
  pose proof (Nat.mod_upper_bound (n + 199) 200) as B.
  lia.
Qed.

(** C9: for every input string, the empty one and those made of tags or
    white space alone included, [calculateReadingTime] returns at least 1:
    the split on white space always yields at least one piece. *)
Theorem calculateReadingTime_at_least_one (content : jsstring) :
  1 <= calculateReadingTime content.
Proof.
  unfold calculateReadingTime.
  apply ceil_div200_pos, split_ws_from_length.
Qed.

(** C2: on the 400-word paragraph of the specification the split yields 401
    pieces, the last one being the empty string behind the final space, so
    [calculateReadingTime] returns 3 where 400 words at 200 words per minute
    make 2; on the empty content the split yields the one piece [""] and
    the function returns 1, not 0. *)
Theorem calculateReadingTime_counts_empty_pieces :
  calculateReadingTime four_hundred_words = 3 /\
  length (split_ws (stripHtml four_hundred_words)) = 401 /\
  last (split_ws (stripHtml four_hundred_words)) (lit "x") = [] /\
  split_ws [] = [[]] /\
  calculateReadingTime [] = 1.
Proof. vm_compute. repeat split. Qed.

(** ** Excerpts *)

(** C7, as the code has it: [createExcerpt] strips the tags; a text of at
    most [maxLength] code units (150 when the argument is omitted) is
    returned unchanged, with no ellipsis; a longer one is cut to its first
    [maxLength] code units, white space is trimmed at both ends of that
    prefix, and the ellipsis is appended.  The two examples of the
    specification come out as it says. *)
Theorem createExcerpt_cases (content : jsstring) (maxLength : option nat) :
  let m := with_default maxLength 150 in
  let text := stripHtml content in
  (length text <= m -> createExcerpt content maxLength = text) /\
  (m < length text ->
   createExcerpt content maxLength = trim (firstn m text) ++ lit "...") /\
  (m < length text ->
   exists before core after,
     firstn m text = before ++ core ++ after /\
     all_space before /\ all_space after /\
     starts_clean core /\ starts_clean (rev core) /\
     createExcerpt content maxLength = core ++ lit "...") /\
  createExcerpt (repeat_str (lit "word ") 40) (Some 10) = lit "word word..." /\
  createExcerpt (lit "short text") (Some 150) = lit "short text".
Proof.
  intros m text.
  assert (Hlong : m < length text ->
            createExcerpt content maxLength
            = trim (firstn m text) ++ lit "...").
  { intros H. unfold createExcerpt.
    fold (with_default maxLength 150). fold m. fold text.
    apply Nat.leb_gt in H. now rewrite H. }
  split; [|split; [exact Hlong|split; [|split; reflexivity]]].
  - intros H. unfold createExcerpt.
    fold (with_default maxLength 150). fold m. fold text.
    apply Nat.leb_le in H. now rewrite H.
  - intros H.
    destruct (trim_characterisation (firstn m text))
      as (before & after & Heq & Hb & Ha & Hs & He).
    exists before, (trim (firstn m text)), after.
    repeat split; auto.
Qed.

Lemma createExcerpt_cases_witness :
  createExcerpt (lit "<b>short</b> text") None = lit "short text" /\
  createExcerpt (lit "a long <i>line</i>") (Some 7) = lit "a long...".
Proof.
  split.
  - refine (proj1 (createExcerpt_cases (lit "<b>short</b> text") None) _).
    vm_compute. lia.
  - refine (proj1 (proj2 (createExcerpt_cases (lit "a long <i>line</i>")
                            (Some 7))) _).
    vm_compute. lia.
Defined.

(** C7 as stated fails: with white space at the start of the text the code
    trims it too, so the result is not the first [maxLength] code units with
    only the trailing white space removed. *)
Lemma createExcerpt_trims_leading_space :
  let content := lit "  hello world" in
  stripHtml content = content /\
  5 < length (stripHtml content) /\
  createExcerpt content (Some 5) = lit "hel..." /\
  createExcerpt content (Some 5)
    <> trimEnd (firstn 5 (stripHtml content)) ++ lit "...".
Proof. vm_compute. repeat split; try lia. discriminate. Qed.

(** ** Parsing decimal numerals *)




(** ** The post listing *)

Section ClientProperties.

Variable env : option jsstring.
Variable fetch : jsstring -> completion Response.
Variable serialize : query -> jsstring.

(** The result of [getPosts] after a successful exchange. *)
Lemma getPosts_success (params : PostsParams) (response : Response)
    (body : value) :
  fetch (getPosts_url env serialize params) = Normal response ->
  ok response = true ->
  json response = Normal body ->
  getPosts env fetch serialize params
  = {| posts := body;
       totalPages :=
         parseInt (string_or (headers_get response (lit "X-WP-TotalPages"))
                             (lit "1"));
       totalPosts :=
         parseInt (string_or (headers_get response (lit "X-WP-Total"))
                             (lit "0"));
       currentPage := with_default (page params) (Int 1) |}.
Proof.
  intros Hfetch Hok Hjson. unfold getPosts.
  rewrite Hfetch. cbn [bind]. rewrite Hok. cbn [negb].
  rewrite Hjson. reflexivity.
Qed.

(** The result of [getPosts] after a failed exchange. *)
Lemma getPosts_failure (params : PostsParams) :
  (exists e, fetch (getPosts_url env serialize params) = Throw e) \/
  (exists response,
     fetch (getPosts_url env serialize params) = Normal response /\
     (ok response = false \/ exists e, json response = Throw e)) ->
  getPosts env fetch serialize params = emptyResult.
Proof.
  intros [[e He]|[response [Hfetch [Hok|[e He]]]]]; unfold getPosts.
  - rewrite He. reflexivity.
  - rewrite Hfetch. cbn [bind]. rewrite Hok. reflexivity.
  - rewrite Hfetch. cbn [bind]. destruct (ok response); [|reflexivity].
    cbn [negb]. rewrite He. reflexivity.
Qed.

End ClientProperties.

(** C1: whatever page number, page size, category filter and search string
    are asked for, a response with a non-success status makes [getPosts]
    return the empty result: no posts, one page, no items, current page 1.
    The function returns a value, nothing is thrown to the caller. *)
Theorem getPosts_non_success_is_empty (env : option jsstring)
    (fetch : jsstring -> completion Response) (serialize : query -> jsstring)
    (params : PostsParams) (response : Response) :
  fetch (getPosts_url env serialize params) = Normal response ->
  ok response = false ->
  getPosts env fetch serialize params
  = {| posts := VArr []; totalPages := Int 1; totalPosts := Int 0;
       currentPage := Int 1 |}.
Proof.
  intros Hfetch Hok. apply getPosts_failure.
  right. exists response. auto.
Qed.

Lemma getPosts_non_success_is_empty_witness :
  getPosts None (always service_unavailable) plain_serialize
    {| page := Some (Int 7); perPage := Some (Int 9);
       categories := Some (SNum (Int 3));
       search := Some (SStr (lit "rocq")) |}
  = emptyResult.
Proof.
  apply (getPosts_non_success_is_empty None (always service_unavailable)
           plain_serialize _ service_unavailable); reflexivity.
Defined.

(** C3: after a successful exchange the [currentPage] of the result is the
    requested page (1 when none was given), whatever the response says; it
    is not clamped to the page count, and a result with [currentPage]
    above [totalPages] does occur: page 5 of a two-page listing. *)
Theorem getPosts_currentPage_is_requested_page :
  (forall env fetch serialize params response body,
     fetch (getPosts_url env serialize params) = Normal response ->
     ok response = true ->
     json response = Normal body ->
     currentPage (getPosts env fetch serialize params)
     = match page params with Some p => p | None => Int 1 end) /\
  (let r := getPosts None
              (always (listing (lit "2") (lit "12") (VArr [])))
              plain_serialize (HomePage_params (Some (lit "5"))) in
   currentPage r = Int 5 /\ totalPages r = Int 2 /\
   num_ltb (totalPages r) (currentPage r) = true).
Proof.
  split.
  - intros env fetch serialize params response body Hfetch Hok Hjson.
    rewrite (getPosts_success _ _ _ _ _ _ Hfetch Hok Hjson). reflexivity.
  - vm_compute. repeat split.
Qed.

Lemma getPosts_currentPage_is_requested_page_witness :
  currentPage
    (getPosts None (always (bare_listing (VArr [post_by VNull])))
       plain_serialize (HomePage_params (Some (lit "40"))))
  = Int 40.
Proof.
  refine (proj1 getPosts_currentPage_is_requested_page None
            (always (bare_listing (VArr [post_by VNull]))) plain_serialize
            (HomePage_params (Some (lit "40")))
            (bare_listing (VArr [post_by VNull]))
            (VArr [post_by VNull]) _ _ _); reflexivity.
Defined.




(** ** The requested page and the query *)




(** ** The page-result invariant *)

(** C6, as the code has it: [getPosts] copies the requested page, the
    parsed header and the decoded body into the result without checking
    them.  After a failed exchange the result meets the invariant (for a
    page size that is not negative); after a successful one it meets the
    invariant exactly when the requested page is at least 1, the parsed
    page count is at least 1 and the body is an array of at most the page
    size. *)
Theorem getPosts_invariant_conditions (env : option jsstring)
    (fetch : jsstring -> completion Response) (serialize : query -> jsstring)
    (params : PostsParams) :
  let pageSize := with_default (perPage params) (Int 9) in
  let r := getPosts env fetch serialize params in
  (((exists e, fetch (getPosts_url env serialize params) = Throw e) \/
    (exists response,
       fetch (getPosts_url env serialize params) = Normal response /\
       (ok response = false \/ exists e, json response = Throw e))) ->
   result_invariant pageSize r = num_leb (Int 0) pageSize) /\
  (forall response body,
     fetch (getPosts_url env serialize params) = Normal response ->
     ok response = true ->
     json response = Normal body ->
     result_invariant pageSize r
     = num_leb (Int 1) (with_default (page params) (Int 1))
       && num_leb (Int 1)
            (parseInt
               (string_or (headers_get response (lit "X-WP-TotalPages"))
                          (lit "1")))
       && match items_length body with
          | Some n => num_leb (Int (Z.of_nat n)) pageSize
          | None => false
          end).
Proof.
  intros pageSize r. subst r. split.
  - intros Hfail. rewrite (getPosts_failure _ _ _ _ Hfail). reflexivity.
  - intros response body Hfetch Hok Hjson.
    rewrite (getPosts_success _ _ _ _ _ _ Hfetch Hok Hjson). reflexivity.
Qed.

Lemma getPosts_invariant_conditions_witness :
  result_invariant (Int 9)
    (getPosts None unreachable plain_serialize (HomePage_params None))
  = true /\
  result_invariant (Int 9)
    (getPosts None
       (always (listing (lit "3") (lit "20") (VArr [post_by VNull])))
       plain_serialize (HomePage_params (Some (lit "2"))))
  = true.
Proof.
  split.
  - refine (proj1 (getPosts_invariant_conditions None unreachable
                     plain_serialize (HomePage_params None)) _).
    left. exists Rejected. reflexivity.
  - refine (proj2 (getPosts_invariant_conditions None
                     (always (listing (lit "3") (lit "20")
                                (VArr [post_by VNull])))
                     plain_serialize (HomePage_params (Some (lit "2"))))
              (listing (lit "3") (lit "20") (VArr [post_by VNull]))
              (VArr [post_by VNull]) _ _ _); reflexivity.
Defined.

(** C6 as stated fails on each of its three parts: an empty listing is
    answered with a page count of 0, which becomes [totalPages]; a requested
    page 0 becomes [currentPage]; and a body longer than the page size is
    returned whole. *)
Lemma getPosts_invariant_not_enforced :
  (let r := getPosts None
              (always (listing (lit "0") (lit "0") (VArr [])))
              plain_serialize (HomePage_params None) in
   totalPosts r = Int 0 /\ totalPages r = Int 0 /\
   result_invariant (Int 9) r = false) /\
  (let r := getPosts None
              (always (listing (lit "2") (lit "12") (VArr [])))
              plain_serialize (HomePage_params (Some (lit "0"))) in
   currentPage r = Int 0 /\ result_invariant (Int 9) r = false) /\
  (let r := getPosts None
              (always (listing (lit "2") (lit "12")
                         (VArr (repeat (post_by VNull) 10))))
              plain_serialize (HomePage_params None) in
   items_length (posts r) = Some 10 /\
   result_invariant (Int 9) r = false).
Proof. vm_compute. repeat split. Qed.

(** ** A post by its slug *)

(** C8: [getPostBySlug] returns [null] when the query succeeds with no
    matching post, and the same [null] when the request fails, be it in
    transport, by its status or in decoding; the caller cannot tell the
    two apart. *)
Theorem getPostBySlug_same_sentinel (env : option jsstring)
    (fetch_a fetch_b : jsstring -> completion Response) (slug : jsstring) :
  zero_matches env fetch_a slug ->
  request_fails env fetch_b slug ->
  getPostBySlug env fetch_a slug = VNull /\
  getPostBySlug env fetch_b slug = VNull /\
  getPostBySlug env fetch_a slug = getPostBySlug env fetch_b slug.
Proof.
  intros [response [Hfetch [Hok Hjson]]] Hfail.
  assert (Ha : getPostBySlug env fetch_a slug = VNull).
  { unfold getPostBySlug. rewrite Hfetch. cbn [bind]. rewrite Hok.
    cbn [negb]. rewrite Hjson. reflexivity. }
  assert (Hb : getPostBySlug env fetch_b slug = VNull).
  { unfold getPostBySlug.
    destruct Hfail as [[e He]|[resp [Hf [Hbad|[e He]]]]].
    - rewrite He. reflexivity.
    - rewrite Hf. cbn [bind]. rewrite Hbad. reflexivity.
    - rewrite Hf. cbn [bind]. destruct (ok resp); [|reflexivity].
      cbn [negb]. rewrite He. reflexivity. }
  rewrite Ha, Hb. repeat split.
Qed.

Lemma getPostBySlug_same_sentinel_witness :
  getPostBySlug None (always (bare_listing (VArr []))) (lit "no-such-post")
  = VNull /\
  getPostBySlug None unreachable (lit "no-such-post") = VNull /\
  getPostBySlug None (always (bare_listing (VArr []))) (lit "no-such-post")
  = getPostBySlug None unreachable (lit "no-such-post").
Proof.
  apply (getPostBySlug_same_sentinel None
           (always (bare_listing (VArr []))) unreachable
           (lit "no-such-post")).
  - exists (bare_listing (VArr [])). repeat split.
  - left. exists Rejected. reflexivity.
Defined.

(** ** The author of a post *)

(** C10: [getAuthorName] gives ['Unknown Author'] when the post has no
    embedded author (no [_embedded], no [author] in it, or an empty author
    list), and also when the first embedded author has a name that is the
    empty string or any other falsy value; a truthy name is returned as it
    is. *)
Theorem getAuthorName_folds_falsy_name :
  (forall fields,
     lookup (lit "_embedded") fields = None ->
     getAuthorName (VObj fields) = Normal unknownAuthor) /\
  (forall fields emb,
     lookup (lit "_embedded") fields = Some (VObj emb) ->
     lookup (lit "author") emb = None \/
     lookup (lit "author") emb = Some (VArr []) ->
     getAuthorName (VObj fields) = Normal unknownAuthor) /\
  (forall fields emb first others name,
     lookup (lit "_embedded") fields = Some (VObj emb) ->
     lookup (lit "author") emb = Some (VArr (VObj first :: others)) ->
     lookup (lit "name") first = Some name ->
     (name = VStr [] -> getAuthorName (VObj fields) = Normal unknownAuthor) /\
     (truthy name = false ->
      getAuthorName (VObj fields) = Normal unknownAuthor) /\
     (truthy name = true -> getAuthorName (VObj fields) = Normal name)).
Proof.
  split; [|split].
  - intros fields H. unfold getAuthorName. cbn [get_field bind].
    rewrite H. reflexivity.
  - intros fields emb He [Ha|Ha]; unfold getAuthorName;
      cbn [get_field bind]; rewrite He;
      cbn [or_undefined opt_field get_field bind]; rewrite Ha; reflexivity.
  - intros fields emb first others name He Ha Hn.
    assert (H : getAuthorName (VObj fields)
                = Normal (or_else name unknownAuthor)).
    { unfold getAuthorName. cbn [get_field bind]. rewrite He.
      cbn [or_undefined opt_field get_field bind]. rewrite Ha.
      cbn [or_undefined opt_index get_index nth bind opt_field get_field].
      rewrite Hn. reflexivity. }
    rewrite H. unfold or_else. repeat split.
    + intros ->. reflexivity.
    + intros ->. reflexivity.
    + intros ->. reflexivity.
Qed.

Lemma getAuthorName_folds_falsy_name_witness :
  getAuthorName (post_by (VStr [])) = Normal unknownAuthor /\
  getAuthorName (post_by (VStr (lit "Ada"))) = Normal (VStr (lit "Ada")) /\
  getAuthorName (VObj [(lit "id", VNum (Int 1))]) = Normal unknownAuthor.
Proof.
  destruct getAuthorName_folds_falsy_name as (Habsent & _ & Hname).
  split; [|split].
  - refine (proj1 (Hname _ _ _ _ (VStr []) _ _ _) eq_refl); reflexivity.
  - refine (proj2 (proj2 (Hname _ _ _ _ (VStr (lit "Ada")) _ _ _)) eq_refl);
      reflexivity.
  - apply Habsent. reflexivity.
Defined.

(** ** Tag stripping *)

(** The example of the specification: tags go, text stays. *)
Lemma stripHtml_example :
  stripHtml (lit "<p>Hello <b>World</b></p>") = lit "Hello World" /\
  stripHtml (lit "a &amp; b") = lit "a &amp; b" /\
  stripHtml (lit "1 < 2") = lit "1 < 2".
Proof. vm_compute. repeat split. Qed.

(** * Further properties of the module *)

(** ** Tag stripping *)

Lemma strip_tags_cons (c : code_unit) (r : jsstring) :
  strip_tags (c :: r)
  = if (c =? LT)%N && has_gt r then strip_tag_run r else c :: strip_tags r.
Proof. reflexivity. Qed.

Lemma strip_tag_run_cons (d : code_unit) (t : jsstring) :
  strip_tag_run (d :: t)
  = if (d =? GT)%N then strip_tags t else strip_tag_run t.
Proof. reflexivity. Qed.

Lemma has_gt_cons (c : code_unit) (r : jsstring) :
  has_gt (c :: r) = (c =? GT)%N || has_gt r.
Proof. unfold has_gt. simpl. now rewrite N.eqb_sym. Qed.

Lemma has_gt_app (a b : jsstring) : has_gt (a ++ b) = has_gt a || has_gt b.
Proof. apply existsb_app. Qed.

Lemma strip_tags_no_gt (s : jsstring) : has_gt s = false -> strip_tags s = s.
Proof.
  induction s as [|c r IH]; intros H; [reflexivity|].
  rewrite has_gt_cons in H. apply orb_false_iff in H. destruct H as [_ Hr].
  rewrite strip_tags_cons, Hr, andb_false_r. now rewrite IH.
Qed.

Lemma strip_tags_tag_free_both (s : jsstring) :
  tag_free (strip_tags s) = true /\ tag_free (strip_tag_run s) = true.
Proof.
  induction s as [|c r [IHs IHr]]; [split; reflexivity|]. split.
  - rewrite strip_tags_cons.
    destruct ((c =? LT)%N) eqn:Hc; cbn [andb].
    + destruct (has_gt r) eqn:Hr; [exact IHr|].
      cbn [tag_free]. rewrite Hc, IHs, (strip_tags_no_gt r Hr), Hr.
      reflexivity.
    + cbn [tag_free]. rewrite Hc, IHs. reflexivity.
  - rewrite strip_tag_run_cons. now destruct ((c =? GT)%N).
Qed.

Lemma strip_tags_fixed (s : jsstring) : tag_free s = true -> strip_tags s = s.
Proof.
  induction s as [|c r IH]; intros H; [reflexivity|].
  cbn [tag_free] in H. apply andb_true_iff in H. destruct H as [Hc Hr].
  rewrite strip_tags_cons, (IH Hr).
  destruct ((c =? LT)%N); [|reflexivity].
  destruct (has_gt r); [discriminate|reflexivity].
Qed.

Lemma strip_tags_subseq_both (s : jsstring) :
  subseq (strip_tags s) s /\ subseq (strip_tag_run s) s.
Proof.
  induction s as [|c r [IHs IHr]]; [split; constructor|]. split.
  - rewrite strip_tags_cons.
    destruct ((c =? LT)%N && has_gt r); now constructor.
  - rewrite strip_tag_run_cons.
    destruct ((c =? GT)%N); now constructor.
Qed.

Lemma subseq_length (a b : jsstring) : subseq a b -> length a <= length b.
Proof. induction 1; simpl; lia. Qed.

Lemma strip_tags_text_prefix (a b : jsstring) :
  has_lt a = false -> strip_tags (a ++ b) = a ++ strip_tags b.
Proof.
  induction a as [|c a' IH]; intros H; [reflexivity|].
  unfold has_lt in H. cbn [existsb] in H.
  apply orb_false_iff in H. destruct H as [Hc Ha].
  rewrite N.eqb_sym in Hc.
  rewrite <- app_comm_cons, strip_tags_cons, Hc. cbn [andb].
  now rewrite (IH Ha).
Qed.

Lemma strip_tag_run_skips (t b : jsstring) :
  has_gt t = false -> strip_tag_run (t ++ GT :: b) = strip_tags b.
Proof.
  induction t as [|c t' IH]; intros H.
  - reflexivity.
  - rewrite has_gt_cons in H. apply orb_false_iff in H.
    destruct H as [Hc Ht].
    rewrite <- app_comm_cons, strip_tag_run_cons, Hc. now apply IH.
Qed.

(** X1: no tag is left in the result of [stripHtml]: no [<] of it has a
    [>] anywhere behind it. *)
Theorem stripHtml_leaves_no_tag (html : jsstring) :
  tag_free (stripHtml html) = true.
Proof. apply strip_tags_tag_free_both. Qed.

(** X2: [stripHtml] leaves a string unchanged exactly when the string holds
    no tag, and stripping twice is stripping once. *)
Theorem stripHtml_fixed_points (html : jsstring) :
  (stripHtml html = html <-> tag_free html = true) /\
  stripHtml (stripHtml html) = stripHtml html.
Proof.
  unfold stripHtml. split; [split|].
  - intros H. rewrite <- H. apply strip_tags_tag_free_both.
  - apply strip_tags_fixed.
  - apply strip_tags_fixed, strip_tags_tag_free_both.
Qed.

Lemma stripHtml_fixed_points_witness :
  stripHtml (lit "if a < b then c") = lit "if a < b then c".
Proof.
  apply (proj2 (proj1 (stripHtml_fixed_points (lit "if a < b then c")))).
  reflexivity.
Defined.

(** X3: [stripHtml] only deletes code units: the result is the input with
    some of them removed, in the same order, and is never longer. *)
Theorem stripHtml_only_deletes (html : jsstring) :
  subseq (stripHtml html) html /\ length (stripHtml html) <= length html.
Proof.
  assert (H : subseq (stripHtml html) html)
    by apply strip_tags_subseq_both.
  split; [exact H | now apply subseq_length].
Qed.

(** X4: text that holds no [<] is kept as it stands, and a tag behind it,
    from its [<] to the first [>], is removed: the rest is stripped on its
    own. *)
Theorem stripHtml_text_then_tag (text tag rest : jsstring) :
  has_lt text = false ->
  has_gt tag = false ->
  stripHtml (text ++ LT :: tag ++ GT :: rest) = text ++ stripHtml rest.
Proof.
  intros Htext Htag. unfold stripHtml.
  rewrite strip_tags_text_prefix by assumption.
  rewrite strip_tags_cons, has_gt_app, has_gt_cons.
  rewrite N.eqb_refl, N.eqb_refl, orb_true_r. cbn [andb].
  now rewrite strip_tag_run_skips.
Qed.

Lemma stripHtml_text_then_tag_witness :
  stripHtml (lit "Hi " ++ LT :: lit "a href=x" ++ GT :: lit "there")
  = lit "Hi " ++ stripHtml (lit "there").
Proof.
  apply (stripHtml_text_then_tag (lit "Hi ") (lit "a href=x") (lit "there"));
    reflexivity.
Defined.

(** ** Excerpts and reading time, continued *)

Lemma trim_length (s : jsstring) : length (trim s) <= length s.
Proof.
  destruct (trim_characterisation s) as (before & after & Heq & _).
  apply (f_equal (@length code_unit)) in Heq.
  rewrite !length_app in Heq. lia.
Qed.

Lemma tag_free_app_inv (a b : jsstring) :
  tag_free (a ++ b) = true -> tag_free a = true /\ tag_free b = true.
Proof.
  induction a as [|c a' IH]; intros H; [now split|].
  rewrite <- app_comm_cons in H. cbn [tag_free] in H.
  apply andb_true_iff in H. destruct H as [Hc Hrest].
  destruct (IH Hrest) as [Ha Hb]. split; [|exact Hb].
  cbn [tag_free]. rewrite Ha, andb_true_r.
  rewrite has_gt_app in Hc.
  destruct ((c =? LT)%N); [|reflexivity].
  destruct (has_gt a'); [discriminate|reflexivity].
Qed.

Lemma tag_free_app_text (a b : jsstring) :
  tag_free a = true -> has_gt b = false -> tag_free (a ++ b) = true.
Proof.
  intros Ha Hb. induction a as [|c a' IH].
  - cbn [app]. rewrite <- (strip_tags_no_gt b Hb). apply strip_tags_tag_free_both.
  - cbn [tag_free] in Ha. apply andb_true_iff in Ha. destruct Ha as [Hc Ha'].
    rewrite <- app_comm_cons. cbn [tag_free].
    rewrite (IH Ha'), andb_true_r, has_gt_app, Hb, orb_false_r. exact Hc.
Qed.

(** X5: an excerpt is never longer than [maxLength] plus the three code
    units of the ellipsis (153 when the argument is omitted). *)
Theorem createExcerpt_length_bound (content : jsstring)
    (maxLength : option nat) :
  length (createExcerpt content maxLength)
  <= with_default maxLength 150 + 3.
Proof.
  unfold createExcerpt. fold (with_default maxLength 150).
  destruct (length (stripHtml content) <=? with_default maxLength 150)
    eqn:Hlen.
  - apply Nat.leb_le in Hlen. lia.
  - rewrite length_app. unfold substring0.
    pose proof (trim_length
                  (firstn (with_default maxLength 150) (stripHtml content))).
    pose proof (firstn_le_length (with_default maxLength 150)
                  (stripHtml content)).
    change (length ellipsis) with 3. lia.
Qed.

(** X6: an excerpt holds no tag, cut or not: truncating and trimming the
    stripped text and appending the ellipsis bring none back. *)
Theorem createExcerpt_leaves_no_tag (content : jsstring)
    (maxLength : option nat) :
  tag_free (createExcerpt content maxLength) = true.
Proof.
  unfold createExcerpt. fold (with_default maxLength 150).
  assert (Htext : tag_free (stripHtml content) = true)
    by apply strip_tags_tag_free_both.
  destruct (length (stripHtml content) <=? with_default maxLength 150);
    [exact Htext|].
  apply tag_free_app_text; [|reflexivity]. unfold substring0.
  rewrite <- (firstn_skipn (with_default maxLength 150) (stripHtml content))
    in Htext.
  apply tag_free_app_inv in Htext. destruct Htext as [Hprefix _].
  destruct (trim_characterisation
              (firstn (with_default maxLength 150) (stripHtml content)))
    as (before & after & Heq & _).
  rewrite Heq in Hprefix.
  apply tag_free_app_inv in Hprefix. destruct Hprefix as [_ Hmid].
  apply tag_free_app_inv in Hmid. apply Hmid.
Qed.

(** X7: the reading time is one minute for every started block of 200
    runs of white space in the stripped text, that is the number of runs
    divided by 200, rounded down, plus one. *)
Theorem calculateReadingTime_by_space_runs (content : jsstring) :
  calculateReadingTime content
  = space_runs false (stripHtml content) / 200 + 1.
Proof.
  unfold calculateReadingTime, stripHtml, ceil_div200.
  rewrite split_ws_length.
  replace (S (space_runs false (strip_tags content)) + 199)
    with (space_runs false (strip_tags content) + 1 * 200) by lia.
  now rewrite Nat.div_add.
Qed.

(** X8: markup does not count: the reading time of a content is the
    reading time of its stripped text. *)
Theorem calculateReadingTime_ignores_tags (content : jsstring) :
  calculateReadingTime (stripHtml content) = calculateReadingTime content.
Proof.
  unfold calculateReadingTime, stripHtml.
  rewrite (strip_tags_fixed (strip_tags content)); [reflexivity|].
  apply strip_tags_tag_free_both.
Qed.

(** ** Reading the page number, continued *)

























(** ** The listing client, continued *)

Lemma number_toString_non_empty (n : number) : number_toString n <> [].
Proof.
  destruct n as [|[|p|p]]; try discriminate.
  cbn [number_toString Z.to_int NilZero.string_of_int].
  unfold NilZero.string_of_uint.
  destruct (Pos.to_uint p); discriminate.
Qed.

(** X13: a request that throws and a body that cannot be decoded end like a
    bad status: [getPosts] returns the empty result. *)
Theorem getPosts_folds_transport_and_decoding_errors
    (env : option jsstring) (fetch : jsstring -> completion Response)
    (serialize : query -> jsstring) (params : PostsParams) :
  (exists e, fetch (getPosts_url env serialize params) = Throw e) \/
  (exists response e,
     fetch (getPosts_url env serialize params) = Normal response /\
     json response = Throw e) ->
  getPosts env fetch serialize params = emptyResult.
Proof.
  intros [H|[response [e [Hfetch Hjson]]]]; apply getPosts_failure.
  - now left.
  - right. exists response. split; [exact Hfetch|]. right. now exists e.
Qed.

Lemma getPosts_folds_transport_and_decoding_errors_witness :
  getPosts None unreachable plain_serialize (HomePage_params (Some (lit "3")))
  = emptyResult.
Proof.
  apply getPosts_folds_transport_and_decoding_errors.
  left. exists Rejected. reflexivity.
Defined.

(** X14: no entry of the query of [getPosts] has an empty value: an empty
    [categories] or [search] is left out, never sent. *)
Theorem getPosts_query_values_non_empty (params : PostsParams)
    (name val : jsstring) :
  In (name, val) (getPosts_queryParams params) -> val <> [].
Proof.
  unfold getPosts_queryParams, append.
  set (c := with_default (categories params) (SStr [])).
  set (q := with_default (search params) (SStr [])).
  assert (Hscalar : forall x, truthy (scalar_value x) = true ->
                              scalar_toString x <> []).
  { intros [s|n] Hx; cbn in *.
    - destruct s; [discriminate|discriminate].
    - apply number_toString_non_empty. }
  intros Hin.
  assert (Hcases :
    val = number_toString (with_default (page params) (Int 1)) \/
    val = number_toString (with_default (perPage params) (Int 9)) \/
    val = lit "true" \/
    (truthy (scalar_value c) = true /\ val = scalar_toString c) \/
    (truthy (scalar_value q) = true /\ val = scalar_toString q)).
  { destruct (truthy (scalar_value c)) eqn:Hc;
      destruct (truthy (scalar_value q)) eqn:Hq;
      cbn [app In] in Hin;
      repeat (destruct Hin as [Hin|Hin];
              [inversion Hin; subst; tauto|]);
      destruct Hin. }
  destruct Hcases as [->|[->|[->|[[Hc ->]|[Hq ->]]]]].
  - apply number_toString_non_empty.
  - apply number_toString_non_empty.
  - discriminate.
  - now apply Hscalar.
  - now apply Hscalar.
Qed.

Lemma getPosts_query_values_non_empty_witness :
  lit "4" <> [].
Proof.
  apply (getPosts_query_values_non_empty
           (CategoryPage_params (Some (SNum (Int 4))) None)
           (lit "categories") (lit "4")).
  cbn. right. right. right. left. reflexivity.
Defined.

(** ** Single records, continued *)

(** X15: when the slug query succeeds and the first element of the body is
    truthy, [getPostBySlug] returns that element. *)
Theorem getPostBySlug_returns_first_match (env : option jsstring)
    (fetch : jsstring -> completion Response) (slug : jsstring)
    (response : Response) (first : value) (others : list value) :
  fetch (getPostBySlug_url env slug) = Normal response ->
  ok response = true ->
  json response = Normal (VArr (first :: others)) ->
  truthy first = true ->
  getPostBySlug env fetch slug = first.
Proof.
  intros Hfetch Hok Hjson Hfirst. unfold getPostBySlug.
  rewrite Hfetch. cbn [bind]. rewrite Hok. cbn [negb]. rewrite Hjson.
  cbn [bind get_index nth try_catch]. unfold or_else. now rewrite Hfirst.
Qed.

Lemma getPostBySlug_returns_first_match_witness :
  getPostBySlug None
    (always (bare_listing (VArr [post_by (VStr (lit "Ada"))])))
    (lit "hello-world")
  = post_by (VStr (lit "Ada")).
Proof.
  apply (getPostBySlug_returns_first_match None _ _
           (bare_listing (VArr [post_by (VStr (lit "Ada"))])) _ []);
    reflexivity.
Defined.

Lemma or_else_null_or_truthy (v : value) :
  or_else v VNull = VNull \/ truthy (or_else v VNull) = true.
Proof.
  unfold or_else. destruct (truthy v) eqn:H; [right; exact H | now left].
Qed.

(** X16: whatever the upstream does, [getPostBySlug] returns [null] or a
    truthy value, never [undefined] or another falsy value: a caller's
    truthiness test separates found from not found. *)
Theorem getPostBySlug_null_or_truthy (env : option jsstring)
    (fetch : jsstring -> completion Response) (slug : jsstring) :
  getPostBySlug env fetch slug = VNull \/
  truthy (getPostBySlug env fetch slug) = true.
Proof.
  unfold getPostBySlug.
  destruct (fetch (getPostBySlug_url env slug)) as [response|e];
    [|now left].
  cbn [bind]. destruct (ok response); [|now left]. cbn [negb].
  destruct (json response) as [body|e]; [|now left]. cbn [bind].
  destruct (get_index body 0) as [first|e]; [|now left].
  cbn [bind try_catch]. apply or_else_null_or_truthy.
Qed.

(** X17: [getCategories] returns the decoded body of a successful
    response as it is, and the empty array when the request throws, the
    status is not a success or the body cannot be decoded. *)
Theorem getCategories_outcomes (env : option jsstring)
    (fetch : jsstring -> completion Response) :
  (forall response body,
     fetch (getCategories_url env) = Normal response ->
     ok response = true ->
     json response = Normal body ->
     getCategories env fetch = body) /\
  ((exists e, fetch (getCategories_url env) = Throw e) \/
   (exists response,
      fetch (getCategories_url env) = Normal response /\
      (ok response = false \/ exists e, json response = Throw e)) ->
   getCategories env fetch = VArr []).
Proof.
  unfold getCategories. split.
  - intros response body Hfetch Hok Hjson.
    rewrite Hfetch. cbn [bind]. rewrite Hok. cbn [negb]. now rewrite Hjson.
  - intros [[e He]|[response [Hfetch [Hok|[e He]]]]].
    + now rewrite He.
    + rewrite Hfetch. cbn [bind]. now rewrite Hok.
    + rewrite Hfetch. cbn [bind]. destruct (ok response); [|reflexivity].
      cbn [negb]. now rewrite He.
Qed.

Lemma getCategories_outcomes_witness :
  getCategories None (always service_unavailable) = VArr [] /\
  getCategories None (always (bare_listing (VArr [VObj []])))
  = VArr [VObj []].
Proof.
  split.
  - apply (proj2 (getCategories_outcomes None (always service_unavailable))).
    right. exists service_unavailable. split; [reflexivity|now left].
  - apply (proj1 (getCategories_outcomes None
                    (always (bare_listing (VArr [VObj []]))))
             (bare_listing (VArr [VObj []]))); reflexivity.
Defined.

(** X18: [getCategoryBySlug] returns [null] or a truthy value whatever the
    upstream does; it returns [null] when the query fails or matches no
    category, and the first element of the body when that is truthy. *)
Theorem getCategoryBySlug_outcomes (env : option jsstring)
    (fetch : jsstring -> completion Response) (slug : jsstring) :
  (getCategoryBySlug env fetch slug = VNull \/
   truthy (getCategoryBySlug env fetch slug) = true) /\
  ((exists e, fetch (getCategoryBySlug_url env slug) = Throw e) \/
   (exists response,
      fetch (getCategoryBySlug_url env slug) = Normal response /\
      (ok response = false \/ (exists e, json response = Throw e) \/
       json response = Normal (VArr []))) ->
   getCategoryBySlug env fetch slug = VNull) /\
  (forall response first others,
     fetch (getCategoryBySlug_url env slug) = Normal response ->
     ok response = true ->
     json response = Normal (VArr (first :: others)) ->
     truthy first = true ->
     getCategoryBySlug env fetch slug = first).
Proof.
  unfold getCategoryBySlug. split; [|split].
  - destruct (fetch (getCategoryBySlug_url env slug)) as [response|e];
      [|now left].
    cbn [bind]. destruct (ok response); [|now left]. cbn [negb].
    destruct (json response) as [body|e]; [|now left]. cbn [bind].
    destruct (get_index body 0) as [first|e]; [|now left].
    cbn [bind try_catch]. apply or_else_null_or_truthy.
  - intros [[e He]|[response [Hfetch [Hok|[[e He]|Hnone]]]]].
    + now rewrite He.
    + rewrite Hfetch. cbn [bind]. now rewrite Hok.
    + rewrite Hfetch. cbn [bind]. destruct (ok response); [|reflexivity].
      cbn [negb]. now rewrite He.
    + rewrite Hfetch. cbn [bind]. destruct (ok response); [|reflexivity].
      cbn [negb]. now rewrite Hnone.
  - intros response first others Hfetch Hok Hjson Hfirst.
    rewrite Hfetch. cbn [bind]. rewrite Hok. cbn [negb]. rewrite Hjson.
    cbn [bind get_index nth try_catch]. unfold or_else. now rewrite Hfirst.
Qed.

Lemma getCategoryBySlug_outcomes_witness :
  getCategoryBySlug None unreachable (lit "tech") = VNull /\
  getCategoryBySlug None
    (always (bare_listing (VArr [VObj [(lit "id", VNum (Int 4))]])))
    (lit "tech")
  = VObj [(lit "id", VNum (Int 4))].
Proof.
  split.
  - apply (proj1 (proj2 (getCategoryBySlug_outcomes None unreachable
                           (lit "tech")))).
    left. exists Rejected. reflexivity.
  - apply (proj2 (proj2 (getCategoryBySlug_outcomes None
                           (always (bare_listing
                                      (VArr [VObj [(lit "id",
                                                    VNum (Int 4))]])))
                           (lit "tech")))
             (bare_listing (VArr [VObj [(lit "id", VNum (Int 4))]]))
             (VObj [(lit "id", VNum (Int 4))]) []); reflexivity.
Defined.

(** ** Accessors on posts, continued *)

Lemma get_field_total (v : value) (name : jsstring) :
  nullish v = false -> exists w, get_field v name = Normal w.
Proof. destruct v; intros H; try discriminate; eexists; reflexivity. Qed.

Lemma get_index_total (v : value) (i : nat) :
  nullish v = false -> exists w, get_index v i = Normal w.
Proof. destruct v; intros H; try discriminate; eexists; reflexivity. Qed.

Lemma opt_field_cases (v : value) (name : jsstring) :
  (nullish v = true /\ opt_field v name = Normal VUndefined) \/
  (nullish v = false /\ opt_field v name = get_field v name).
Proof. destruct v; (left; now split) || (right; now split). Qed.

Lemma opt_index_cases (v : value) (i : nat) :
  (nullish v = true /\ opt_index v i = Normal VUndefined) \/
  (nullish v = false /\ opt_index v i = get_index v i).
Proof. destruct v; (left; now split) || (right; now split). Qed.

(** The second, unguarded read of [getFeaturedImage] gives what the guarded
    one gave: the function is the guarded chain with the placeholder as
    fallback. *)
Lemma getFeaturedImage_guarded (post : value) :
  getFeaturedImage post
  = (embedded <- get_field post (lit "_embedded") ;;
     media <- opt_field embedded (lit "wp:featuredmedia") ;;
     first <- opt_index media 0 ;;
     source_url <- opt_field first (lit "source_url") ;;
     Normal (or_else source_url placeholderImage)).
Proof.
  unfold getFeaturedImage, or_else.
  destruct (get_field post (lit "_embedded")) as [embedded|e] eqn:He;
    [|reflexivity].
  cbn [bind].
  destruct (opt_field_cases embedded (lit "wp:featuredmedia"))
    as [[_ ->]|[Hn1 E1]]; [reflexivity|].
  rewrite E1.
  destruct (get_field_total embedded (lit "wp:featuredmedia") Hn1)
    as [media ->].
  cbn [bind].
  destruct (opt_index_cases media 0) as [[_ ->]|[Hn2 E2]]; [reflexivity|].
  rewrite E2. destruct (get_index_total media 0 Hn2) as [first ->].
  cbn [bind].
  destruct (opt_field_cases first (lit "source_url"))
    as [[_ ->]|[Hn3 E3]]; [reflexivity|].
  rewrite E3.
  destruct (get_field_total first (lit "source_url") Hn3) as [url Hurl].
  rewrite Hurl. cbn [bind]. now destruct (truthy url).
Qed.

(** X19: [getFeaturedImage] gives the placeholder path when the post has no
    embedded media (no [_embedded], no [wp:featuredmedia] in it, or an empty
    media list) or when the first media record has no truthy [source_url];
    otherwise it gives that [source_url]. *)
Theorem getFeaturedImage_source_or_placeholder :
  (forall fields,
     lookup (lit "_embedded") fields = None ->
     getFeaturedImage (VObj fields) = Normal placeholderImage) /\
  (forall fields emb,
     lookup (lit "_embedded") fields = Some (VObj emb) ->
     lookup (lit "wp:featuredmedia") emb = None \/
     lookup (lit "wp:featuredmedia") emb = Some (VArr []) ->
     getFeaturedImage (VObj fields) = Normal placeholderImage) /\
  (forall fields emb first others,
     lookup (lit "_embedded") fields = Some (VObj emb) ->
     lookup (lit "wp:featuredmedia") emb
     = Some (VArr (VObj first :: others)) ->
     getFeaturedImage (VObj fields)
     = Normal (match lookup (lit "source_url") first with
               | Some url => if truthy url then url else placeholderImage
               | None => placeholderImage
               end)).
Proof.
  split; [|split].
  - intros fields H. rewrite getFeaturedImage_guarded.
    cbn [get_field bind]. rewrite H. reflexivity.
  - intros fields emb He [Hm|Hm]; rewrite getFeaturedImage_guarded;
      cbn [get_field bind]; rewrite He;
      cbn [or_undefined opt_field get_field bind]; rewrite Hm; reflexivity.
  - intros fields emb first others He Hm. rewrite getFeaturedImage_guarded.
    cbn [get_field bind]. rewrite He.
    cbn [or_undefined opt_field get_field bind]. rewrite Hm.
    cbn [or_undefined opt_index get_index nth bind opt_field get_field].
    destruct (lookup (lit "source_url") first) as [url|]; reflexivity.
Qed.

Lemma getFeaturedImage_source_or_placeholder_witness :
  getFeaturedImage (post_by VNull) = Normal placeholderImage /\
  getFeaturedImage
    (VObj [(lit "_embedded",
            VObj [(lit "wp:featuredmedia",
                   VArr [VObj [(lit "source_url",
                                VStr (lit "/a.jpg"))]])])])
  = Normal (VStr (lit "/a.jpg")).
Proof.
  destruct getFeaturedImage_source_or_placeholder as (_ & Hnone & Hsome).
  split.
  - refine (Hnone _ _ _ _); [reflexivity | left; reflexivity].
  - exact (Hsome
             [(lit "_embedded",
               VObj [(lit "wp:featuredmedia",
                      VArr [VObj [(lit "source_url",
                                   VStr (lit "/a.jpg"))]])])]
             [(lit "wp:featuredmedia",
               VArr [VObj [(lit "source_url", VStr (lit "/a.jpg"))]])]
             [(lit "source_url", VStr (lit "/a.jpg"))] []
             eq_refl eq_refl).
Defined.

(** X20: both accessors throw a [TypeError] on a post that is [null] or
    [undefined] and on no other: for every other post they return a truthy
    value, the fallback or what the post embeds. *)
Theorem post_accessors_total_on_posts (post : value) :
  (nullish post = true ->
   getAuthorName post = Throw TypeError /\
   getFeaturedImage post = Throw TypeError) /\
  (nullish post = false ->
   (exists name, getAuthorName post = Normal name /\ truthy name = true) /\
   (exists url, getFeaturedImage post = Normal url /\ truthy url = true)).
Proof.
  assert (Hchain : forall a b c fallback,
    nullish post = false -> truthy fallback = true ->
    exists v,
      (embedded <- get_field post a ;;
       x <- opt_field embedded b ;;
       first <- opt_index x 0 ;;
       y <- opt_field first c ;;
       Normal (or_else y fallback)) = Normal v /\ truthy v = true).
  { intros a b c fallback Hpost Hfb.
    assert (Hend : forall y, exists v,
              Normal (or_else y fallback) = Normal v /\ truthy v = true).
    { intros y. exists (or_else y fallback). split; [reflexivity|].
      unfold or_else. now destruct (truthy y) eqn:Hy. }
    destruct (get_field_total post a Hpost) as [embedded ->]. cbn [bind].
    destruct (opt_field_cases embedded b) as [[_ ->]|[Hn1 ->]];
      [apply Hend|].
    destruct (get_field_total embedded b Hn1) as [x ->]. cbn [bind].
    destruct (opt_index_cases x 0) as [[_ ->]|[Hn2 ->]]; [apply Hend|].
    destruct (get_index_total x 0 Hn2) as [first ->]. cbn [bind].
    destruct (opt_field_cases first c) as [[_ ->]|[Hn3 ->]]; [apply Hend|].
    destruct (get_field_total first c Hn3) as [y ->]. cbn [bind].
    apply Hend. }
  split.
  - intros H. destruct post; try discriminate; split; reflexivity.
  - intros H. split.
    + apply (Hchain (lit "_embedded") (lit "author") (lit "name")
               unknownAuthor H eq_refl).
    + rewrite getFeaturedImage_guarded.
      apply (Hchain (lit "_embedded") (lit "wp:featuredmedia")
               (lit "source_url") placeholderImage H eq_refl).
Qed.

Lemma post_accessors_total_on_posts_witness :
  getAuthorName VNull = Throw TypeError /\
  exists url, getFeaturedImage (VStr (lit "draft")) = Normal url /\
              truthy url = true.
Proof.
  split.
  - apply (proj1 (post_accessors_total_on_posts VNull) eq_refl).
  - apply (proj2 (post_accessors_total_on_posts (VStr (lit "draft")))
             eq_refl).
Defined.

(** ** The home page *)

Lemma article_cards_total (elems : list value) :
  forallb (fun v => negb (nullish v)) elems = true ->
  exists cards,
    article_cards elems = Normal cards /\
    map snd cards = elems /\
    forall key post,
      In (key, post) cards -> get_field post (lit "id") = Normal key.
Proof.
  induction elems as [|post rest IH]; intros H.
  - exists []. repeat split. intros key post [].
  - cbn [forallb] in H. apply andb_true_iff in H. destruct H as [Hp Hr].
    apply negb_true_iff in Hp.
    destruct (get_field_total post (lit "id") Hp) as [key Hkey].
    destruct (IH Hr) as (cards & Hcards & Hsnd & Hkeys).
    exists ((key, post) :: cards). cbn [article_cards].
    rewrite Hkey. cbn [bind]. rewrite Hcards. cbn [bind].
    repeat split.
    + cbn [map snd]. now rewrite Hsnd.
    + intros k p [E|Hin]; [now inversion E; subst | now apply Hkeys].
Qed.

Lemma article_cards_throw (elems : list value) :
  existsb nullish elems = true -> article_cards elems = Throw TypeError.
Proof.
  induction elems as [|post rest IH]; intros H; [discriminate|].
  cbn [existsb] in H. cbn [article_cards].
  destruct (nullish post) eqn:Hp.
  - destruct post; try discriminate; reflexivity.
  - destruct (get_field_total post (lit "id") Hp) as [key ->].
    cbn [bind]. cbn [orb] in H. now rewrite (IH H).
Qed.

(** X21: the home page shows the empty state, "No Articles Found", when
    the listing request fails in any way and also when it succeeds with an
    empty array; the two cases look the same to the reader. *)
Theorem HomePage_empty_state (env : option jsstring)
    (fetch : jsstring -> completion Response) (serialize : query -> jsstring)
    (searchParams_page : option jsstring) :
  let url := getPosts_url env serialize (HomePage_params searchParams_page) in
  (exists e, fetch url = Throw e) \/
  (exists response,
     fetch url = Normal response /\
     (ok response = false \/ (exists e, json response = Throw e) \/
      json response = Normal (VArr []))) ->
  HomePage env fetch serialize searchParams_page = Normal NoArticlesFound.
Proof.
  intros url H. unfold HomePage.
  assert (Hposts :
    posts (getPosts env fetch serialize (HomePage_params searchParams_page))
    = VArr []).
  { destruct H as [He|[response [Hfetch [Hok|[He|Hempty]]]]].
    - rewrite getPosts_failure; [reflexivity|now left].
    - rewrite getPosts_failure; [reflexivity|].
      right. exists response. split; [exact Hfetch|now left].
    - rewrite getPosts_failure; [reflexivity|].
      right. exists response. split; [exact Hfetch|now right].
    - destruct (ok response) eqn:Hok.
      + now rewrite (getPosts_success _ _ _ _ _ _ Hfetch Hok Hempty).
      + rewrite getPosts_failure; [reflexivity|].
        right. exists response. split; [exact Hfetch|now left]. }
  rewrite Hposts. reflexivity.
Qed.

Lemma HomePage_empty_state_witness :
  HomePage None (always service_unavailable) plain_serialize None
  = Normal NoArticlesFound /\
  HomePage None (always (listing (lit "0") (lit "0") (VArr [])))
    plain_serialize (Some (lit "2"))
  = Normal NoArticlesFound.
Proof.
  split.
  - apply (HomePage_empty_state None (always service_unavailable)
             plain_serialize None).
    right. exists service_unavailable. split; [reflexivity|now left].
  - apply (HomePage_empty_state None
             (always (listing (lit "0") (lit "0") (VArr [])))
             plain_serialize (Some (lit "2"))).
    right. exists (listing (lit "0") (lit "0") (VArr [])).
    split; [reflexivity|]. right. right. reflexivity.
Defined.

(** X22: when the listing succeeds with a non-empty array of posts, none
    of them [null], the home page renders one card per post, in the order
    of the body, each keyed by the [id] of its post, and hands the requested
    page and the parsed page count to the pagination. *)
Theorem HomePage_renders_every_post (env : option jsstring)
    (fetch : jsstring -> completion Response) (serialize : query -> jsstring)
    (searchParams_page : option jsstring) (response : Response)
    (first : value) (others : list value) :
  fetch (getPosts_url env serialize (HomePage_params searchParams_page))
  = Normal response ->
  ok response = true ->
  json response = Normal (VArr (first :: others)) ->
  forallb (fun v => negb (nullish v)) (first :: others) = true ->
  exists cards,
    HomePage env fetch serialize searchParams_page
    = Normal (ArticleGrid cards
                (requestedPage searchParams_page)
                (parseInt
                   (string_or (headers_get response (lit "X-WP-TotalPages"))
                              (lit "1")))) /\
    map snd cards = first :: others /\
    forall key post,
      In (key, post) cards -> get_field post (lit "id") = Normal key.
Proof.
  intros Hfetch Hok Hjson Hposts.
  destruct (article_cards_total _ Hposts) as (cards & Hcards & Hsnd & Hkeys).
  exists cards. split; [|split; assumption].
  unfold HomePage.
  rewrite (getPosts_success _ _ _ _ _ _ Hfetch Hok Hjson).
  cbn [posts currentPage totalPages].
  change (get_field (VArr (first :: others)) (lit "length"))
    with (Normal (VNum (Int (Z.of_nat (length (first :: others)))))).
  cbn [bind length Z.of_nat is_zero map_article_cards].
  rewrite Hcards. reflexivity.
Qed.

Lemma HomePage_renders_every_post_witness :
  exists cards,
    HomePage None
      (always (listing (lit "3") (lit "20") (VArr [post_by VNull])))
      plain_serialize (Some (lit "2"))
    = Normal (ArticleGrid cards (Int 2) (Int 3)) /\
    map snd cards = [post_by VNull].
Proof.
  destruct (HomePage_renders_every_post None
              (always (listing (lit "3") (lit "20") (VArr [post_by VNull])))
              plain_serialize (Some (lit "2"))
              (listing (lit "3") (lit "20") (VArr [post_by VNull]))
              (post_by VNull) [] eq_refl eq_refl eq_refl eq_refl)
    as (cards & Hpage & Hsnd & _).
  exists cards. split; [exact Hpage | exact Hsnd].
Defined.

(** X23: the error handling of [getPosts] does not cover a body that
    decodes to something else than a list of posts: on a successful
    response whose body is [null], or an array with a [null] or [undefined]
    entry, the home page throws a [TypeError]. *)
Theorem HomePage_throws_on_malformed_body (env : option jsstring)
    (fetch : jsstring -> completion Response) (serialize : query -> jsstring)
    (searchParams_page : option jsstring) (response : Response)
    (body : value) :
  fetch (getPosts_url env serialize (HomePage_params searchParams_page))
  = Normal response ->
  ok response = true ->
  json response = Normal body ->
  body = VNull \/
  (exists elems, body = VArr elems /\ existsb nullish elems = true) ->
  HomePage env fetch serialize searchParams_page = Throw TypeError.
Proof.
  intros Hfetch Hok Hjson Hbody. unfold HomePage.
  rewrite (getPosts_success _ _ _ _ _ _ Hfetch Hok Hjson).
  cbn [posts currentPage totalPages].
  destruct Hbody as [->|[elems [-> Hnull]]]; [reflexivity|].
  destruct elems as [|post rest]; [discriminate|].
  change (get_field (VArr (post :: rest)) (lit "length"))
    with (Normal (VNum (Int (Z.of_nat (length (post :: rest)))))).
  cbn [bind length Z.of_nat is_zero map_article_cards].
  now rewrite (article_cards_throw _ Hnull).
Qed.

Lemma HomePage_throws_on_malformed_body_witness :
  HomePage None (always (bare_listing VNull)) plain_serialize None
  = Throw TypeError.
Proof.
  apply (HomePage_throws_on_malformed_body None
           (always (bare_listing VNull)) plain_serialize None
           (bare_listing VNull) VNull); try reflexivity.
  now left.
Defined.
